(** * goto: the in-memory URL store (store.go) and its redirect handler (main.go)

    A shallow embedding of [URLStore] with its four methods [Get], [Set],
    [Count] and [Put], and of the [Redirect] handler that consumes [Get].

    - [map[string]string] is a [gmap string string];
    - a method with a pointer receiver that mutates the map takes the store
      and returns the new store next to its result;
    - Go's [int] result of [len] is a [Z] (a length is never negative and
      never reaches the 64-bit bound, so no wrap-around is involved);
    - the [for { ... }] loop of [Put] has no exit but its [return]; it is
      unrolled under a bound on the number of iterations, and [None] means
      that the bound was reached without a [return]. *)

From stdpp Require Import base option list strings gmap fin_maps pretty.
From Stdlib Require Import ZArith Lia.

Open Scope Z_scope.
Open Scope string_scope.

(** ** Data *)

(** [type URLStore struct { urls map[string]string }] *)
Record URLStore : Type := mkURLStore { urls : gmap string string }.

(** A store whose map was made with [make(map[string]string)]. *)
Definition emptyStore : URLStore := mkURLStore ∅.

(** Modelled from the spec: [genKey] is called by [Put] but is not defined
    in store.go or main.go.  The specification (4.1) accepts any total,
    deterministic function of the ordinal.  [decimalKey] is one of them,
    the decimal numeral of the ordinal; it is injective.  The development
    is parametric in the generator, and [decimalKey] only serves to run
    the store on concrete inputs. *)
Definition decimalKey (n : Z) : string := pretty n.

(** ** The store (store.go) *)

Module Store.
Section WithGenerator.

(** [genKey(n int) string] *)
Variable genKey : Z -> string.

(** [func (s *URLStore) Get(key string) string]: indexing a map with a
    missing key yields the zero value of the element type. *)
Definition Get (s : URLStore) (key : string) : string :=
  default "" (urls s !! key).

(** [func (s *URLStore) Set(key, url string) bool]; [Set] is a reserved
    word of the proof language, hence the underscore. *)
Definition Set_ (s : URLStore) (key url : string) : bool * URLStore :=
  match urls s !! key with
  | Some _ => (false, s)
  | None => (true, mkURLStore (<[key := url]> (urls s)))
  end.

(** [func (s *URLStore) Count() int] *)
Definition Count (s : URLStore) : Z := Z.of_nat (size (urls s)).

(** One pass through the body of the loop of [Put]: [inl] carries the
    store into the next iteration, [inr] is the [return key]. *)
Definition Put_body (s : URLStore) (url : string)
  : URLStore + string * URLStore :=
  let key := genKey (Count s) in
  let '(ok, s') := Set_ s key url in
  if ok then inr (key, s') else inl s'.

(** [func (s *URLStore) Put(url string) string], at most [fuel]
    iterations of the loop. *)
Fixpoint Put (fuel : nat) (s : URLStore) (url : string)
  : option (string * URLStore) :=
  match fuel with
  | O => None
  | S fuel' =>
      match Put_body s url with
      | inr r => Some r
      | inl s' => Put fuel' s' url
      end
  end.

(** *** What the loop of [Put] hands to the generator

    The same loop, recording for each iteration the ordinal passed to
    [genKey] and the candidate key obtained. *)
Fixpoint Put_candidates (fuel : nat) (s : URLStore) (url : string)
  : list (Z * string) :=
  match fuel with
  | O => []
  | S fuel' =>
      let n := Count s in
      let key := genKey n in
      let '(ok, s') := Set_ s key url in
      if ok then [(n, key)] else (n, key) :: Put_candidates fuel' s' url
  end.

(** *** Effects on the store

    The statements by which a method can act on the store: the map
    assignment [s.urls[key] = url], and a send of a record on a channel
    field, [s.save <- record{key, url}], which is how a write queue is
    fed.  [URLStore] has the single field [urls], and store.go holds no
    send statement, so no function below produces [ChanSend]. *)
Inductive effect : Type :=
| MapStore (key url : string)
| ChanSend (key url : string).

(** The effects of one call of [Set], in program order. *)
Definition Set_effects (s : URLStore) (key url : string) : list effect :=
  match urls s !! key with
  | Some _ => []
  | None => [MapStore key url]
  end.

(** The effects of (at most [fuel] iterations of) a call of [Put]: those
    of its calls of [Set]; [Count] and [genKey] have none. *)
Fixpoint Put_effects (fuel : nat) (s : URLStore) (url : string)
  : list effect :=
  match fuel with
  | O => []
  | S fuel' =>
      let key := genKey (Count s) in
      let '(ok, s') := Set_ s key url in
      Set_effects s key url ++ (if ok then [] else Put_effects fuel' s' url)
  end.

(** *** Sequences of calls *)

Inductive op : Type :=
| Op_Get (key : string)
| Op_Set (key url : string)
| Op_Count
| Op_Put (url : string).

Inductive ret : Type :=
| Ret_string (v : string)
| Ret_bool (b : bool)
| Ret_int (n : Z).

(** One call on the store; [None] when the call is a [Put] that does not
    return within [fuel] iterations. *)
Definition exec (fuel : nat) (s : URLStore) (o : op)
  : option (ret * URLStore) :=
  match o with
  | Op_Get key => Some (Ret_string (Get s key), s)
  | Op_Set key url => let '(ok, s') := Set_ s key url in Some (Ret_bool ok, s')
  | Op_Count => Some (Ret_int (Count s), s)
  | Op_Put url =>
      match Put fuel s url with
      | Some (key, s') => Some (Ret_string key, s')
      | None => None
      end
  end.

(** The calls of [ops] one after the other.  The result is the history of
    the calls that returned, each with its result, and the store they
    leave.  A call that does not return ends the run: nothing after it is
    executed. *)
Fixpoint run (fuel : nat) (s : URLStore) (ops : list op)
  : list (op * ret) * URLStore :=
  match ops with
  | [] => ([], s)
  | o :: ops' =>
      match exec fuel s o with
      | None => ([], s)
      | Some (r, s') =>
          let '(h, s'') := run fuel s' ops' in ((o, r) :: h, s'')
      end
  end.

(** The pair a returned call got accepted by insert-if-absent: a [Set]
    that answered [true], or a [Put], which returns the key only after its
    [Set] answered [true]. *)
Definition accepted (c : op * ret) : list (string * string) :=
  match c with
  | (Op_Set key url, Ret_bool true) => [(key, url)]
  | (Op_Put url, Ret_string key) => [(key, url)]
  | _ => []
  end.

Definition accepted_of (h : list (op * ret)) : list (string * string) :=
  flat_map accepted h.

(** [accepted_chain s l s']: the store goes from [s] to [s'] through
    successful calls of [Set], one for each pair of [l], in that order. *)
Inductive accepted_chain : URLStore -> list (string * string) -> URLStore -> Prop :=
| chain_done s : accepted_chain s [] s
| chain_step s key url s1 l s' :
    Set_ s key url = (true, s1) ->
    accepted_chain s1 l s' ->
    accepted_chain s ((key, url) :: l) s'.

(** The generator has more keys than the store has entries: some list of
    ordinals, longer than the number of entries, is mapped to pairwise
    distinct keys. *)
Definition key_space_larger (s : URLStore) : Prop :=
  exists l : list Z,
    Forall (fun n => 0 <= n) l /\
    NoDup (genKey <$> l) /\
    (size (urls s) < length l)%nat.

(** The keys of the store are those of the ordinals below its count:
    what [Put] alone builds from the empty store. *)
Definition dense (s : URLStore) : Prop :=
  forall k,
    is_Some (urls s !! k) <-> exists n, 0 <= n < Count s /\ k = genKey n.

End WithGenerator.
End Store.

(** ** The redirect handler (main.go) *)

Module Main.

(** [http.StatusFound] *)
Definition StatusFound : Z := 302.

(** [func Redirect(w http.ResponseWriter, r *http.Request)], as a function
    of the global [store] and of [r.URL.Path]; the result is the target
    and the status code handed to [http.Redirect].  [r.URL.Path[1:]] on
    an empty path is a run-time panic: [None]. *)
Definition Redirect (store : URLStore) (path : string)
  : option (string * Z) :=
  match path with
  | EmptyString => None
  | String _ key =>
      let url := Store.Get store key in
      if decide (url = "") then Some ("/add", StatusFound)
      else Some (url, StatusFound)
  end.

(** The line feed and the double quote, the two characters of [addForm]
    that are written by their codes. *)
Definition nl : string := String (Ascii.ascii_of_nat 10) EmptyString.
Definition dq : string := String (Ascii.ascii_of_nat 34) EmptyString.

(** [const addForm], a raw string literal that opens and ends with a line
    feed. *)
Definition addForm : string :=
  nl +:+ "<html><body>" +:+ nl +:+
  "<form method=" +:+ dq +:+ "POST" +:+ dq +:+
    " action=" +:+ dq +:+ "/add" +:+ dq +:+ ">" +:+ nl +:+
  "URL: <input type=" +:+ dq +:+ "text" +:+ dq +:+
    " name=" +:+ dq +:+ "url" +:+ dq +:+ ">" +:+ nl +:+
  "<input type=" +:+ dq +:+ "submit" +:+ dq +:+
    " value=" +:+ dq +:+ "Add" +:+ dq +:+ ">" +:+ nl +:+
  "</form>" +:+ nl +:+
  "</html></body>" +:+ nl.

(** What a handler leaves in the [http.ResponseWriter]: the Content-Type
    header it set and the bytes it wrote. *)
Record response : Type := mkResponse { content_type : string; body : string }.

(** [func Add(w http.ResponseWriter, r *http.Request)], as a function of
    the global [store] and of [r.FormValue("url")].  [None] when the call
    of [Put] does not return within [fuel] iterations. *)
Definition Add (genKey : Z -> string) (fuel : nat) (store : URLStore)
    (url : string) : option (response * URLStore) :=
  if decide (url = "") then Some (mkResponse "text/html" addForm, store)
  else
    match Store.Put genKey fuel store url with
    | Some (key, store') => Some (mkResponse "text/html" key, store')
    | None => None
    end.

(** *** Sequences of requests

    The two handlers that [main] registers, called one request after the
    other on the global store. *)
Inductive request : Type :=
| Req_Redirect (path : string)
| Req_Add (url : string).

Inductive reply : Type :=
| Reply_Redirect (r : option (string * Z))
| Reply_Add (r : response).

(** One request; [None] when the handler does not return.  A [Redirect]
    that panics has not touched the store, and the server of net/http
    recovers the panic of a handler and goes on serving: the reply is
    [Reply_Redirect None] and the store is the same. *)
Definition handle (genKey : Z -> string) (fuel : nat) (store : URLStore)
    (q : request) : option (reply * URLStore) :=
  match q with
  | Req_Redirect path => Some (Reply_Redirect (Redirect store path), store)
  | Req_Add url =>
      match Add genKey fuel store url with
      | Some (r, store') => Some (Reply_Add r, store')
      | None => None
      end
  end.

(** The replies to the requests that were answered, and the store they
    leave; a handler that does not return ends the sequence. *)
Fixpoint serve (genKey : Z -> string) (fuel : nat) (store : URLStore)
    (qs : list request) : list reply * URLStore :=
  match qs with
  | [] => ([], store)
  | q :: qs' =>
      match handle genKey fuel store q with
      | None => ([], store)
      | Some (r, store') =>
          let '(rs, store'') := serve genKey fuel store' qs' in
          (r :: rs, store'')
      end
  end.

(** No key of the store is bound to the empty string. *)
Definition no_blank (store : URLStore) : Prop :=
  forall key url, urls store !! key = Some url -> url <> "".

End Main.

Import Store.

(** ** Concrete stores used in the examples *)

(** The store after [Set("1", "http://a")] on an empty store. *)
Definition store_one : URLStore := (Set_ emptyStore "1" "http://a").2.

(** The store after [Put("")] on an empty store, under [decimalKey]. *)
Definition store_blank : URLStore := mkURLStore {["0" := ""]}.

(** ** Facts about [Set] *)

Section SetFacts.

Implicit Types (s : URLStore) (key url k v : string).

Lemma Set_absent s key url :
  urls s !! key = None ->
  Set_ s key url = (true, mkURLStore (<[key := url]> (urls s))).
Proof. intros Hk. unfold Set_. now rewrite Hk. Qed.

Lemma Set_present s key url :
  is_Some (urls s !! key) -> Set_ s key url = (false, s).
Proof. intros [v Hk]. unfold Set_. now rewrite Hk. Qed.

Lemma Set_true_inv s key url s' :
  Set_ s key url = (true, s') ->
  urls s !! key = None /\ s' = mkURLStore (<[key := url]> (urls s)).
Proof.
  unfold Set_. destruct (urls s !! key) as [v|] eqn:Hk; intros H.
  - discriminate H.
  - now inversion H.
Qed.

Lemma Set_false_inv s key url s' :
  Set_ s key url = (false, s') -> is_Some (urls s !! key) /\ s' = s.
Proof.
  unfold Set_. destruct (urls s !! key) as [v|] eqn:Hk; intros H.
  - inversion H. eauto.
  - discriminate H.
Qed.

(** Whatever [Set] answers, an entry of the map stays as it is. *)
Lemma Set_keeps s key url k v :
  urls s !! k = Some v -> urls (Set_ s key url).2 !! k = Some v.
Proof.
  intros Hk. unfold Set_. destruct (urls s !! key) as [w|] eqn:Hkey; simpl.
  - exact Hk.
  - rewrite lookup_insert_ne; [exact Hk | congruence].
Qed.

End SetFacts.

Create HintDb store.
#[local] Hint Constructors accepted_chain : store.
#[local] Hint Resolve Set_absent Set_present : store.

(** ** Facts about the loop of [Put] *)

Section PutFacts.

Variable genKey : Z -> string.

Implicit Types (s : URLStore) (key url k v : string) (fuel : nat).

(** The candidate of an iteration that starts in [s]. *)
Local Abbreviation candidate s := (genKey (Count s)).

Lemma Put_body_free s url :
  urls s !! candidate s = None ->
  Put_body genKey s url =
    inr (candidate s, mkURLStore (<[candidate s := url]> (urls s))).
Proof. intros Hk. unfold Put_body. now rewrite Set_absent. Qed.

Lemma Put_body_taken s url :
  is_Some (urls s !! candidate s) -> Put_body genKey s url = inl s.
Proof. intros Hk. unfold Put_body. now rewrite Set_present. Qed.

(** A free candidate: the first iteration returns. *)
Lemma Put_free fuel s url :
  urls s !! candidate s = None ->
  Put genKey (S fuel) s url =
    Some (candidate s, mkURLStore (<[candidate s := url]> (urls s))).
Proof. intros Hk. simpl. now rewrite Put_body_free. Qed.

(** A taken candidate: an iteration ends in the store it started in, so
    the next one meets the same candidate, and so on. *)
Lemma Put_taken fuel s url :
  is_Some (urls s !! candidate s) -> Put genKey fuel s url = None.
Proof.
  intros Hk. induction fuel as [|fuel IH]; simpl.
  - reflexivity.
  - now rewrite Put_body_taken.
Qed.

Lemma Put_inv fuel s url key s' :
  Put genKey fuel s url = Some (key, s') ->
  key = candidate s /\ urls s !! key = None /\
  s' = mkURLStore (<[key := url]> (urls s)).
Proof.
  intros H. destruct (urls s !! candidate s) as [w|] eqn:Hk.
  - rewrite Put_taken in H by eauto. discriminate H.
  - destruct fuel as [|fuel]; [discriminate H|].
    rewrite Put_free in H by exact Hk. inversion H; subst. auto.
Qed.

(** [Put] returns a key only out of a call of [Set] that answered [true]. *)
Lemma Put_accepted fuel s url key s' :
  Put genKey fuel s url = Some (key, s') -> Set_ s key url = (true, s').
Proof.
  intros H. apply Put_inv in H as (-> & Hk & ->). now apply Set_absent.
Qed.

(** The key returned is bound to the value in the store returned. *)
Lemma Put_then_Get fuel s url key s' :
  Put genKey fuel s url = Some (key, s') -> Get s' key = url.
Proof.
  intros H. apply Put_inv in H as (-> & _ & ->).
  unfold Get. simpl. now rewrite lookup_insert_eq.
Qed.

(** [Put] returns, given enough iterations, exactly when its candidate is
    free. *)
Lemma Put_returns_iff s url :
  (exists fuel r, Put genKey fuel s url = Some r) <->
  urls s !! candidate s = None.
Proof.
  split.
  - intros (fuel & [key s'] & H).
    apply Put_inv in H as (-> & Hk & _). exact Hk.
  - intros Hk. exists 1%nat. eexists. now apply Put_free.
Qed.

(** Whatever the generator: once [Set] has stored the key of ordinal 1 in
    an empty store, which then counts one entry, [Put] meets that key as
    its candidate and does not return. *)
Lemma Put_stuck_after_Set fuel v url :
  Put genKey fuel (Set_ emptyStore (genKey 1) v).2 url = None.
Proof.
  change (Set_ emptyStore (genKey 1) v).2
    with (mkURLStore {[genKey 1 := v]}).
  apply Put_taken. unfold Count. cbn [urls].
  rewrite map_size_singleton. change (Z.of_nat 1) with 1.
  rewrite lookup_singleton_eq. eauto.
Qed.

(** More iterations do not change the result of a call that returned. *)
Lemma Put_fuel_mono fuel fuel' s url r :
  (fuel <= fuel')%nat ->
  Put genKey fuel s url = Some r -> Put genKey fuel' s url = Some r.
Proof.
  intros Hle H. destruct r as [key s'].
  pose proof (Put_inv _ _ _ _ _ H) as (-> & Hk & ->).
  destruct fuel' as [|fuel'].
  - destruct fuel; [discriminate H | lia].
  - now apply Put_free.
Qed.

Lemma Put_candidates_free fuel s url :
  urls s !! candidate s = None ->
  Put_candidates genKey (S fuel) s url = [(Count s, candidate s)].
Proof. intros Hk. simpl. now rewrite Set_absent. Qed.

Lemma Put_candidates_taken fuel s url :
  is_Some (urls s !! candidate s) ->
  Put_candidates genKey fuel s url = replicate fuel (Count s, candidate s).
Proof.
  intros Hk. induction fuel as [|fuel IH]; simpl.
  - reflexivity.
  - rewrite Set_present by exact Hk. now rewrite IH.
Qed.

(** The recorded loop is the loop of [Put]: when [Put] returns, the last
    candidate recorded is the key returned. *)
Lemma Put_candidates_last fuel s url key s' :
  Put genKey fuel s url = Some (key, s') ->
  last (Put_candidates genKey fuel s url) = Some (Count s, key).
Proof.
  intros H. pose proof (Put_inv _ _ _ _ _ H) as (-> & Hk & ->).
  destruct fuel as [|fuel]; [discriminate H|].
  now rewrite Put_candidates_free.
Qed.

Lemma Put_effects_free fuel s url :
  urls s !! candidate s = None ->
  Put_effects genKey (S fuel) s url = [MapStore (candidate s) url].
Proof.
  intros Hk. simpl. unfold Set_effects. rewrite Set_absent by exact Hk.
  now rewrite Hk.
Qed.

Lemma Put_effects_taken fuel s url :
  is_Some (urls s !! candidate s) -> Put_effects genKey fuel s url = [].
Proof.
  intros Hk. induction fuel as [|fuel IH]; simpl.
  - reflexivity.
  - unfold Set_effects. rewrite Set_present by exact Hk.
    destruct Hk as [w Hw]. rewrite Hw. simpl. apply IH.
Qed.

End PutFacts.

(** ** Facts about sequences of calls *)

Section RunFacts.

Variable genKey : Z -> string.

Implicit Types (s : URLStore) (key url k v : string) (fuel : nat).
Implicit Types (o : op) (r : ret) (ops : list op).

Lemma run_cons fuel s o ops r s' :
  exec genKey fuel s o = Some (r, s') ->
  run genKey fuel s (o :: ops) =
    ((o, r) :: (run genKey fuel s' ops).1, (run genKey fuel s' ops).2).
Proof.
  intros He. simpl. rewrite He. now destruct (run genKey fuel s' ops).
Qed.

Lemma run_stuck fuel s o ops :
  exec genKey fuel s o = None -> run genKey fuel s (o :: ops) = ([], s).
Proof. intros He. simpl. now rewrite He. Qed.

(** Every call that returns got the store from [s] to [s'] by the
    successful calls of [Set] that [accepted] names. *)
Lemma exec_chain fuel s o r s' :
  exec genKey fuel s o = Some (r, s') -> accepted_chain s (accepted (o, r)) s'.
Proof.
  destruct o as [key|key url| |url]; simpl.
  - intros [= <- <-]. auto with store.
  - destruct (Set_ s key url) as [[|] s1] eqn:Hs; intros [= <- <-]; simpl.
    + eauto with store.
    + apply Set_false_inv in Hs as [_ ->]. auto with store.
  - intros [= <- <-]. auto with store.
  - destruct (Put genKey fuel s url) as [[key s1]|] eqn:Hp; [|discriminate].
    intros [= <- <-]. simpl. eauto using Put_accepted with store.
Qed.

Lemma accepted_chain_app s l1 s1 l2 s2 :
  accepted_chain s l1 s1 -> accepted_chain s1 l2 s2 ->
  accepted_chain s (l1 ++ l2) s2.
Proof.
  induction 1 as [s|s key url s1 l s' Hs _ IH]; intros H2; simpl.
  - exact H2.
  - econstructor; [exact Hs | now apply IH].
Qed.

(** Along a chain no entry is lost or altered ... *)
Lemma accepted_chain_keeps s l s' k v :
  accepted_chain s l s' -> urls s !! k = Some v -> urls s' !! k = Some v.
Proof.
  induction 1 as [s|s key url s1 l s' Hs _ IH]; intros Hk.
  - exact Hk.
  - apply IH. pose proof (Set_keeps s key url k v Hk) as H.
    now rewrite Hs in H.
Qed.

(** ... and every entry at the end was there at the start or is one of
    the accepted pairs. *)
Lemma accepted_chain_origin s l s' k v :
  accepted_chain s l s' -> urls s' !! k = Some v ->
  urls s !! k = Some v \/ (k, v) ∈ l.
Proof.
  induction 1 as [s|s key url s1 l s' Hs _ IH]; intros Hk.
  - now left.
  - destruct (IH Hk) as [H1|Hin]; [|right; now constructor].
    apply Set_true_inv in Hs as [Hnone ->]. simpl in H1.
    destruct (decide (key = k)) as [->|Hne].
    + rewrite lookup_insert_eq in H1. inversion H1; subst.
      right. constructor.
    + rewrite lookup_insert_ne in H1 by exact Hne. now left.
Qed.

Lemma run_chain fuel s ops :
  accepted_chain s (accepted_of (run genKey fuel s ops).1)
                 (run genKey fuel s ops).2.
Proof.
  revert s. induction ops as [|o ops IH]; intros s.
  - constructor.
  - destruct (exec genKey fuel s o) as [[r s1]|] eqn:He.
    + rewrite (run_cons _ _ _ _ _ _ He). simpl.
      eapply accepted_chain_app; [exact (exec_chain _ _ _ _ _ He) | apply IH].
    + rewrite (run_stuck _ _ _ _ He). constructor.
Qed.

Lemma run_keeps fuel s ops k v :
  urls s !! k = Some v -> urls (run genKey fuel s ops).2 !! k = Some v.
Proof. apply accepted_chain_keeps with (1 := run_chain fuel s ops). Qed.

(** Running on after a prefix keeps what the prefix left. *)
Lemma run_prefix_keeps fuel ops1 ops2 s k v :
  urls (run genKey fuel s ops1).2 !! k = Some v ->
  urls (run genKey fuel s (ops1 ++ ops2)).2 !! k = Some v.
Proof.
  revert s. induction ops1 as [|o ops1 IH]; intros s.
  - simpl. apply run_keeps.
  - rewrite <- app_comm_cons.
    destruct (exec genKey fuel s o) as [[r s1]|] eqn:He.
    + rewrite !(run_cons _ _ _ _ _ _ He). simpl. apply IH.
    + now rewrite !(run_stuck _ _ _ _ He).
Qed.

End RunFacts.

(** ** When [Put] does return: an injective generator and no stray keys *)

Section DenseStores.

Variable genKey : Z -> string.

(** The generator maps different ordinals to different keys. *)
Hypothesis genKey_inj :
  forall n m, 0 <= n -> 0 <= m -> genKey n = genKey m -> n = m.

Implicit Types (s : URLStore) (key url k v : string) (fuel : nat).

Lemma dense_empty : dense genKey emptyStore.
Proof.
  intros k. unfold Count. simpl. rewrite lookup_empty, map_size_empty. split.
  - intros [v Hv]. discriminate Hv.
  - intros (n & Hn & _). simpl in Hn. lia.
Qed.

Lemma dense_free s : dense genKey s -> urls s !! genKey (Count s) = None.
Proof.
  intros Hd. apply eq_None_not_Some. intros Hsome.
  apply Hd in Hsome as (n & Hn & Heq).
  apply genKey_inj in Heq; unfold Count in *; lia.
Qed.

Lemma dense_insert s url :
  dense genKey s ->
  dense genKey (mkURLStore (<[genKey (Count s) := url]> (urls s))).
Proof.
  intros Hd k. pose proof (dense_free s Hd) as Hfree.
  unfold Count at 2. simpl. rewrite (map_size_insert_None _ _ _ Hfree).
  rewrite Nat2Z.inj_succ. fold (Count s).
  rewrite lookup_insert_is_Some, (Hd k). split.
  - intros [<-|(_ & n & Hn & ->)].
    + exists (Count s). unfold Count. split; [lia | reflexivity].
    + exists n. split; [lia | reflexivity].
  - intros (n & Hn & ->).
    destruct (decide (n = Count s)) as [->|Hne]; [now left|].
    right. split.
    + intros Heq. apply genKey_inj in Heq; unfold Count in *; lia.
    + exists n. split; [lia | reflexivity].
Qed.

(** A call other than [Set], on a dense store, returns and leaves a dense
    store. *)
Lemma exec_dense fuel s o :
  (0 < fuel)%nat -> (forall key url, o <> Op_Set key url) -> dense genKey s ->
  exists r s', exec genKey fuel s o = Some (r, s') /\ dense genKey s'.
Proof.
  intros Hfuel Ho Hd. destruct o as [key|key url| |url]; simpl.
  - eauto.
  - now destruct (Ho key url).
  - eauto.
  - destruct fuel as [|fuel]; [lia|].
    rewrite Put_free by now apply dense_free.
    eexists _, _. split; [reflexivity | now apply dense_insert].
Qed.

(** From a dense store, a sequence of calls of [Get], [Count] and [Put]
    runs to its end: every [Put] in it returns. *)
Lemma run_dense fuel s (ops : list op) :
  (0 < fuel)%nat ->
  Forall (fun o => forall key url, o <> Op_Set key url) ops ->
  dense genKey s ->
  length (run genKey fuel s ops).1 = length ops /\
  dense genKey (run genKey fuel s ops).2.
Proof.
  intros Hfuel Hops. revert s.
  induction Hops as [|o ops Ho _ IH]; intros s Hd.
  - now split.
  - destruct (exec_dense fuel s o Hfuel Ho Hd) as (r & s1 & He & Hd1).
    rewrite (run_cons _ _ _ _ _ _ _ He). simpl.
    destruct (IH s1 Hd1) as [Hlen Hdense]. split; [now rewrite Hlen | exact Hdense].
Qed.

End DenseStores.

(** ** The properties of the store *)

Section Claims.

Variable genKey : Z -> string.

Implicit Types (s : URLStore) (key url k v : string) (fuel : nat).

(** C5.  [Set] is insert-if-absent: on a key that is present it answers
    [false] and leaves the store as it is; on a key that is absent it
    answers [true] and the store becomes the old one with [key] mapped to
    [url], every other key being as before. *)
Theorem Set_insert_if_absent s key url :
  (is_Some (urls s !! key) -> Set_ s key url = (false, s)) /\
  (urls s !! key = None ->
     Set_ s key url = (true, mkURLStore (<[key := url]> (urls s))) /\
     urls (Set_ s key url).2 !! key = Some url /\
     forall k, k <> key -> urls (Set_ s key url).2 !! k = urls s !! k).
Proof.
  split.
  - apply Set_present.
  - intros Hk. rewrite Set_absent by exact Hk. simpl. split; [reflexivity|].
    split.
    + apply lookup_insert_eq.
    + intros k Hne. apply lookup_insert_ne. congruence.
Qed.

(** C1, as the code has it.  [Put] returns exactly when the candidate key
    [genKey (Count s)] is absent from the map: it then returns that key
    from its first iteration, leaving the map with the key bound to the
    value.  When the candidate is present no number of iterations makes
    [Put] return.  The result of a [Put] that returns is a key; there is
    no error result. *)
Theorem Put_returns_iff_candidate_free s url :
  (urls s !! genKey (Count s) = None ->
     forall fuel,
       Put genKey (S fuel) s url =
         Some (genKey (Count s),
               mkURLStore (<[genKey (Count s) := url]> (urls s)))) /\
  (is_Some (urls s !! genKey (Count s)) ->
     forall fuel, Put genKey fuel s url = None) /\
  ((exists fuel r, Put genKey fuel s url = Some r) <->
   urls s !! genKey (Count s) = None).
Proof.
  split; [|split].
  - intros Hk fuel. now apply Put_free.
  - intros Hk fuel. now apply Put_taken.
  - apply Put_returns_iff.
Qed.

(** C2, as the code has it.  Every iteration of the loop of [Put] passes
    [Count()] to the generator.  When the candidate is free there is one
    iteration.  When it is taken, the failed [Set] leaves the map as it
    is, and each retry passes the same ordinal and obtains the same
    candidate again. *)
Theorem Put_retry_same_ordinal s url :
  (urls s !! genKey (Count s) = None ->
     forall fuel,
       Put_candidates genKey (S fuel) s url = [(Count s, genKey (Count s))]) /\
  (is_Some (urls s !! genKey (Count s)) ->
     forall fuel,
       Put_candidates genKey fuel s url =
         replicate fuel (Count s, genKey (Count s))).
Proof.
  split; intros Hk fuel.
  - now apply Put_candidates_free.
  - now apply Put_candidates_taken.
Qed.

(** C3, as the code has it.  A [Put] that returns [key] has one effect on
    the store, the assignment of [url] to [key] in the map, made by its
    successful [Set]; the key was absent before, and the store returned is
    the old one with that entry added.  Nothing is sent to a queue. *)
Theorem Put_effect_is_the_insert fuel s url key s' :
  Put genKey fuel s url = Some (key, s') ->
  Put_effects genKey fuel s url = [MapStore key url] /\
  urls s !! key = None /\
  s' = mkURLStore (<[key := url]> (urls s)).
Proof.
  intros H. pose proof (Put_inv _ _ _ _ _ _ H) as (-> & Hk & ->).
  split; [|split; [exact Hk | reflexivity]].
  destruct fuel as [|fuel]; [discriminate H|].
  now apply Put_effects_free.
Qed.

(** C6.  When [Put url] has returned [key], [Get key] on the store it
    leaves is [url]; only the map is involved.  And [Put url] does return
    such a key, from its first iteration, when its candidate is free. *)
Theorem Get_after_Put s url :
  (forall fuel key s',
     Put genKey fuel s url = Some (key, s') -> Get s' key = url) /\
  (urls s !! genKey (Count s) = None ->
     exists key s',
       (forall fuel, Put genKey (S fuel) s url = Some (key, s')) /\
       Get s' key = url).
Proof.
  split.
  - intros fuel key s'. apply Put_then_Get.
  - intros Hk. eexists _, _. split.
    + intros fuel. now apply Put_free.
    + apply (Put_then_Get genKey 1 s). now apply Put_free.
Qed.

(** C7.  Along any sequence of calls of [Get], [Set], [Count] and [Put]:
    an entry present after a prefix of the sequence is present, with the
    same value, after any longer prefix; the store is reached from the
    initial one through successful calls of [Set] alone, one per accepted
    pair; and every entry present is an entry of the initial store or an
    accepted pair. *)
Theorem store_append_only fuel s (ops1 ops2 : list op) :
  (forall k v,
     urls (run genKey fuel s ops1).2 !! k = Some v ->
     urls (run genKey fuel s (ops1 ++ ops2)).2 !! k = Some v) /\
  accepted_chain s (accepted_of (run genKey fuel s ops1).1)
                 (run genKey fuel s ops1).2 /\
  (forall k v,
     urls (run genKey fuel s ops1).2 !! k = Some v ->
     urls s !! k = Some v \/ (k, v) ∈ accepted_of (run genKey fuel s ops1).1).
Proof.
  split; [|split].
  - intros k v. apply run_prefix_keeps.
  - apply run_chain.
  - intros k v. apply accepted_chain_origin, run_chain.
Qed.

(** C8.  Two calls of [Put] that return, the second one after the first
    on the same store, with any calls in between, return different keys.
    (That the two values differ is not needed.) *)
Theorem Put_keys_distinct fuel1 fuel fuel2 s url1 url2 (ops : list op)
    key1 key2 s1 s2 :
  Put genKey fuel1 s url1 = Some (key1, s1) ->
  Put genKey fuel2 (run genKey fuel s1 ops).2 url2 = Some (key2, s2) ->
  key1 <> key2.
Proof.
  intros H1 H2 Heq. subst key2.
  apply Put_inv in H1 as (_ & _ & ->).
  apply Put_inv in H2 as (_ & Hnone & _).
  rewrite (run_keeps genKey fuel _ ops key1 url1) in Hnone.
  - discriminate Hnone.
  - simpl. apply lookup_insert_eq.
Qed.

(** C9.  [Get] is total and has no error result.  On a key that is not in
    the initial store and that no call since has got accepted, it returns
    the empty string. *)
Theorem Get_never_put fuel s (ops : list op) key :
  urls s !! key = None ->
  key ∉ (accepted_of (run genKey fuel s ops).1).*1 ->
  Get (run genKey fuel s ops).2 key = "".
Proof.
  intros Hnone Hnot. unfold Get.
  destruct (urls (run genKey fuel s ops).2 !! key) as [v|] eqn:Hk;
    [|reflexivity].
  exfalso.
  destruct (accepted_chain_origin _ _ _ _ _ (run_chain genKey fuel s ops) Hk)
    as [H0|Hin].
  - congruence.
  - apply Hnot. apply list_elem_of_fmap. now exists (key, v).
Qed.

(** C10.  A key returned by [Put ""] reads back as the empty string, which
    is what [Get] returns for any key that is absent, and [Redirect]
    answers both with the redirection to [/add]. *)
Theorem Put_blank_reads_as_absent fuel s key s' :
  Put genKey fuel s "" = Some (key, s') ->
  Get s' key = "" /\
  Main.Redirect s' ("/" +:+ key) = Some ("/add", Main.StatusFound) /\
  forall k, urls s' !! k = None ->
    Get s' k = Get s' key /\
    Main.Redirect s' ("/" +:+ k) = Main.Redirect s' ("/" +:+ key).
Proof.
  intros H. pose proof (Put_then_Get _ _ _ _ _ _ H) as Hget.
  assert (Hred : forall k, Get s' k = "" ->
            Main.Redirect s' ("/" +:+ k) = Some ("/add", Main.StatusFound)).
  { intros k Hgk. cbv [String.append]. unfold Main.Redirect. rewrite Hgk. reflexivity. }
  split; [exact Hget|]. split; [now apply Hred|].
  intros k Hk.
  assert (Hgk : Get s' k = "") by (unfold Get; now rewrite Hk).
  split; [congruence|].
  now rewrite !Hred.
Qed.

End Claims.

(** ** The store at work, under the decimal generator *)

(** The decimal generator never maps two ordinals to one key: its key
    space is infinite. *)
Lemma decimalKey_inj (n m : Z) : decimalKey n = decimalKey m -> n = m.
Proof. unfold decimalKey. apply (inj pretty). Qed.

(** Under the decimal generator, calls of [Get], [Count] and [Put] on the
    empty store all return. *)
Lemma decimalKey_run_dense fuel (ops : list op) :
  (0 < fuel)%nat ->
  Forall (fun o => forall key url, o <> Op_Set key url) ops ->
  length (run decimalKey fuel emptyStore ops).1 = length ops.
Proof.
  intros Hfuel Hops.
  apply (run_dense decimalKey (fun n m _ _ => decimalKey_inj n m));
    [exact Hfuel | exact Hops | apply dense_empty].
Qed.

(** [Set] on a key that is there, and on one that is not. *)
Lemma Set_insert_if_absent_witness :
  Set_ store_one "1" "http://b" = (false, store_one) /\
  Set_ emptyStore "1" "http://a" =
    (true, mkURLStore (<["1" := "http://a"]> ∅)).
Proof.
  split.
  - apply (proj1 (Set_insert_if_absent store_one "1" "http://b")).
    exists "http://a". reflexivity.
  - apply (proj2 (Set_insert_if_absent emptyStore "1" "http://a")).
    reflexivity.
Defined.

(** [Put] on the empty store returns at once; on [store_one], where the
    candidate of ordinal 1 is taken, it does not return. *)
Lemma Put_returns_iff_candidate_free_witness :
  Put decimalKey 1 emptyStore "http://a" =
    Some ("0", mkURLStore (<["0" := "http://a"]> ∅)) /\
  forall fuel, Put decimalKey fuel store_one "http://b" = None.
Proof.
  split.
  - apply (proj1 (Put_returns_iff_candidate_free decimalKey emptyStore "http://a")).
    reflexivity.
  - apply (proj1 (proj2 (Put_returns_iff_candidate_free decimalKey store_one
                           "http://b"))).
    exists "http://a". reflexivity.
Defined.

(** C1 as stated fails.  [store_one] holds one entry, under the key "1",
    and the decimal generator has more than one key ("0" is free, for
    one); still [Put] on [store_one] returns after no number of
    iterations, its candidate being "1" each time. *)
Lemma Put_may_never_return :
  key_space_larger decimalKey store_one /\
  urls store_one !! decimalKey 0 = None /\
  forall fuel, Put decimalKey fuel store_one "http://b" = None.
Proof.
  split; [|split].
  - exists [0; 1]. split; [|split].
    + repeat constructor; lia.
    + apply (bool_decide_unpack _). vm_compute. exact I.
    + vm_compute. lia.
  - reflexivity.
  - intros fuel. apply Put_taken. exists "http://a". reflexivity.
Qed.

(** One iteration on the empty store, and retries on [store_one]. *)
Lemma Put_retry_same_ordinal_witness :
  Put_candidates decimalKey 1 emptyStore "http://a" = [(0, "0")] /\
  Put_candidates decimalKey 4 store_one "http://b" = replicate 4 (1, "1").
Proof.
  split.
  - apply (proj1 (Put_retry_same_ordinal decimalKey emptyStore "http://a")).
    reflexivity.
  - apply (proj2 (Put_retry_same_ordinal decimalKey store_one "http://b")).
    exists "http://a". reflexivity.
Defined.

(** C2 as stated fails.  On [store_one] the insert of the first iteration
    fails, and the retries pass the ordinal 1 again and obtain the key
    "1" again, however many there are. *)
Lemma Put_retry_repeats_candidate :
  Put_candidates decimalKey 3 store_one "http://b" =
    [(1, "1"); (1, "1"); (1, "1")] /\
  forall fuel,
    Put_candidates decimalKey fuel store_one "http://b" =
      replicate fuel (1, "1").
Proof.
  split.
  - reflexivity.
  - intros fuel. apply (Put_candidates_taken decimalKey).
    exists "http://a". reflexivity.
Qed.

(** A [Put] that returns, and its single effect. *)
Lemma Put_effect_is_the_insert_witness :
  Put decimalKey 1 emptyStore "http://a" =
    Some ("0", mkURLStore (<["0" := "http://a"]> ∅)) /\
  Put_effects decimalKey 1 emptyStore "http://a" = [MapStore "0" "http://a"].
Proof.
  assert (H : Put decimalKey 1 emptyStore "http://a" =
                Some ("0", mkURLStore (<["0" := "http://a"]> ∅)))
    by reflexivity.
  split; [exact H|].
  exact (proj1 (Put_effect_is_the_insert decimalKey _ _ _ _ _ H)).
Defined.

(** C3 as stated fails.  [Put] on the empty store returns the key "0";
    its effects are the map assignment and nothing else: no record is
    sent to a queue. *)
Lemma Put_sends_nothing :
  Put decimalKey 1 emptyStore "http://a" =
    Some ("0", mkURLStore (<["0" := "http://a"]> ∅)) /\
  Put_effects decimalKey 1 emptyStore "http://a" = [MapStore "0" "http://a"] /\
  Put_effects decimalKey 1 emptyStore "http://a" <>
    [MapStore "0" "http://a"; ChanSend "0" "http://a"] /\
  ChanSend "0" "http://a" ∉ Put_effects decimalKey 1 emptyStore "http://a".
Proof.
  split; [reflexivity|]. split; [reflexivity|]. split.
  - discriminate.
  - intros Hin. apply list_elem_of_singleton in Hin. discriminate Hin.
Qed.

Lemma Get_after_Put_witness :
  Put decimalKey 1 emptyStore "http://a" =
    Some ("0", mkURLStore (<["0" := "http://a"]> ∅)) /\
  Get (mkURLStore (<["0" := "http://a"]> ∅)) "0" = "http://a".
Proof.
  assert (H : Put decimalKey 1 emptyStore "http://a" =
                Some ("0", mkURLStore (<["0" := "http://a"]> ∅)))
    by reflexivity.
  split; [exact H|].
  exact (proj1 (Get_after_Put decimalKey emptyStore "http://a") _ _ _ H).
Defined.

(** Two calls of [Put], then four more calls; [Set] stores the key "3",
    which is the candidate of the [Put] that follows, so that this [Put]
    does not return and the run ends there.  The entry of the first
    [Put] is still in the store. *)
Lemma store_append_only_witness :
  urls (run decimalKey 2 emptyStore [Op_Put "x"; Op_Put "y"]).2 !! "0"
    = Some "x" /\
  urls (run decimalKey 2 emptyStore
          ([Op_Put "x"; Op_Put "y"] ++
           [Op_Get "1"; Op_Set "3" "z"; Op_Put "w"; Op_Count])).2 !! "0"
    = Some "x" /\
  accepted_of (run decimalKey 2 emptyStore [Op_Put "x"; Op_Put "y"]).1
    = [("0", "x"); ("1", "y")].
Proof.
  assert (H : urls (run decimalKey 2 emptyStore [Op_Put "x"; Op_Put "y"]).2
                !! "0" = Some "x") by reflexivity.
  split; [exact H|]. split; [|reflexivity].
  exact (proj1 (store_append_only decimalKey 2 emptyStore
                  [Op_Put "x"; Op_Put "y"]
                  [Op_Get "1"; Op_Set "3" "z"; Op_Put "w"; Op_Count])
               "0" "x" H).
Defined.

Lemma Put_keys_distinct_witness :
  Put decimalKey 1 emptyStore "http://example.com/a" =
    Some ("0", mkURLStore {["0" := "http://example.com/a"]}) /\
  Put decimalKey 1
      (run decimalKey 1 (mkURLStore {["0" := "http://example.com/a"]})
           [Op_Get "0"; Op_Count]).2
      "http://example.com/b" =
    Some ("1", mkURLStore (<["1" := "http://example.com/b"]>
                             {["0" := "http://example.com/a"]})) /\
  "0" <> "1".
Proof.
  assert (H1 : Put decimalKey 1 emptyStore "http://example.com/a" =
                 Some ("0", mkURLStore {["0" := "http://example.com/a"]}))
    by reflexivity.
  assert (H2 : Put decimalKey 1
                 (run decimalKey 1
                      (mkURLStore {["0" := "http://example.com/a"]})
                      [Op_Get "0"; Op_Count]).2
                 "http://example.com/b" =
               Some ("1", mkURLStore (<["1" := "http://example.com/b"]>
                                        {["0" := "http://example.com/a"]})))
    by reflexivity.
  split; [exact H1|]. split; [exact H2|].
  exact (Put_keys_distinct decimalKey _ _ _ _ _ _ _ _ _ _ _ H1 H2).
Defined.

Lemma Get_never_put_witness :
  urls emptyStore !! "nonexistent" = None /\
  ("nonexistent" ∉
     (accepted_of (run decimalKey 1 emptyStore
                       [Op_Put "http://example.com/a";
                        Op_Put "http://example.com/b"]).1).*1) /\
  Get (run decimalKey 1 emptyStore
           [Op_Put "http://example.com/a"; Op_Put "http://example.com/b"]).2
      "nonexistent" = "".
Proof.
  assert (H1 : urls emptyStore !! "nonexistent" = None) by reflexivity.
  assert (H2 : "nonexistent" ∉
                 (accepted_of (run decimalKey 1 emptyStore
                                   [Op_Put "http://example.com/a";
                                    Op_Put "http://example.com/b"]).1).*1).
  { apply (bool_decide_unpack _). vm_compute. exact I. }
  split; [exact H1|]. split; [exact H2|].
  exact (Get_never_put decimalKey _ _ _ _ H1 H2).
Defined.

Lemma Put_blank_reads_as_absent_witness :
  Put decimalKey 1 emptyStore "" = Some ("0", store_blank) /\
  Get store_blank "0" = "" /\
  Main.Redirect store_blank "/0" = Some ("/add", 302) /\
  Main.Redirect store_blank "/nonexistent" = Some ("/add", 302).
Proof.
  assert (H : Put decimalKey 1 emptyStore "" = Some ("0", store_blank))
    by reflexivity.
  destruct (Put_blank_reads_as_absent decimalKey _ _ _ _ H)
    as (Hget & Hred & Hany).
  split; [exact H|]. split; [exact Hget|]. split; [exact Hred|].
  reflexivity.
Defined.

(** ** More on the store: counting, repeated and commuting inserts *)

Section CountFacts.

Variable genKey : Z -> string.

Implicit Types (s : URLStore) (key url k v : string) (fuel : nat).

Lemma Count_insert s key url :
  urls s !! key = None ->
  Count (mkURLStore (<[key := url]> (urls s))) = Count s + 1.
Proof.
  intros Hk. unfold Count. simpl.
  rewrite (map_size_insert_None _ _ _ Hk). lia.
Qed.

Lemma accepted_chain_count s l s' :
  accepted_chain s l s' -> Count s' = Count s + Z.of_nat (length l).
Proof.
  induction 1 as [s|s key url s1 l s' Hs _ IH].
  - simpl. lia.
  - apply Set_true_inv in Hs as [Hk ->].
    rewrite IH, (Count_insert _ _ _ Hk). simpl length. lia.
Qed.

(** X1.  [Count] after a call of [Set] is the count before plus one when
    [Set] answered [true], and the count before when it answered
    [false]. *)
Theorem Count_after_Set s key url :
  Count (Set_ s key url).2 =
    Count s + (if (Set_ s key url).1 then 1 else 0).
Proof.
  unfold Set_. destruct (urls s !! key) as [w|] eqn:Hk; simpl.
  - lia.
  - now apply Count_insert.
Qed.

(** X2.  Of two calls of [Set] on one key the second answers [false] and
    changes nothing, whatever the first one did; when the key was free,
    [Get] gives the value of the first call. *)
Theorem Set_twice_first_wins s key url1 url2 :
  Set_ (Set_ s key url1).2 key url2 = (false, (Set_ s key url1).2) /\
  (urls s !! key = None ->
     Get (Set_ (Set_ s key url1).2 key url2).2 key = url1).
Proof.
  assert (Hsome : is_Some (urls (Set_ s key url1).2 !! key)).
  { unfold Set_. destruct (urls s !! key) as [w|] eqn:Hk; simpl.
    - rewrite Hk. eauto.
    - rewrite lookup_insert_eq. eauto. }
  rewrite (Set_present _ _ _ Hsome). split; [reflexivity|].
  intros Hk. rewrite (Set_absent _ _ _ Hk). unfold Get. simpl.
  now rewrite lookup_insert_eq.
Qed.

(** X3.  Calls of [Set] on two different keys commute: in either order
    they leave the same store and each call gets the same answer. *)
Theorem Set_commute s key1 url1 key2 url2 :
  key1 <> key2 ->
  (Set_ (Set_ s key1 url1).2 key2 url2).2 =
    (Set_ (Set_ s key2 url2).2 key1 url1).2 /\
  (Set_ s key1 url1).1 = (Set_ (Set_ s key2 url2).2 key1 url1).1 /\
  (Set_ s key2 url2).1 = (Set_ (Set_ s key1 url1).2 key2 url2).1.
Proof.
  intros Hne. unfold Set_.
  destruct (urls s !! key1) as [w1|] eqn:H1;
    destruct (urls s !! key2) as [w2|] eqn:H2; simpl;
    rewrite ?lookup_insert_ne by congruence;
    rewrite ?H1, ?H2; simpl; repeat split.
  f_equal. apply insert_insert_ne. congruence.
Qed.

(** X4.  Along any sequence of calls, [Count] grows by one for each pair
    that got accepted (a [Set] that answered [true], a [Put] that
    returned) and by nothing else. *)
Theorem Count_after_run fuel s (ops : list op) :
  Count (run genKey fuel s ops).2 =
    Count s + Z.of_nat (length (accepted_of (run genKey fuel s ops).1)).
Proof. apply accepted_chain_count, run_chain. Qed.

End CountFacts.

(** ** Successive calls of [Put] under an injective generator *)

Section PutSequences.

Variable genKey : Z -> string.

Hypothesis genKey_inj :
  forall n m, 0 <= n -> 0 <= m -> genKey n = genKey m -> n = m.

Implicit Types (s : URLStore) (key url k v : string) (fuel : nat).

(** X5.  With a generator that maps different ordinals to different
    keys, on a store whose keys are those of the ordinals below its
    count (the empty store is one): successive calls of [Put] all
    return, the call of rank [i] returns the key of ordinal
    [Count() + i], [Get] on that key gives the value put, and [Count]
    ends raised by the number of calls. *)
Theorem Put_sequence_keys fuel s (vs : list string) :
  (0 < fuel)%nat -> dense genKey s ->
  Count (run genKey fuel s (Op_Put <$> vs)).2 =
    Count s + Z.of_nat (length vs) /\
  forall i v, vs !! i = Some v ->
    (run genKey fuel s (Op_Put <$> vs)).1 !! i =
      Some (Op_Put v, Ret_string (genKey (Count s + Z.of_nat i))) /\
    Get (run genKey fuel s (Op_Put <$> vs)).2
        (genKey (Count s + Z.of_nat i)) = v.
Proof.
  intros Hfuel. revert s. induction vs as [|v0 vs IH]; intros s Hd.
  - split; [simpl; lia|]. intros i v Hi. discriminate Hi.
  - pose proof (dense_free genKey genKey_inj s Hd) as Hfree.
    pose proof (dense_insert genKey genKey_inj s v0 Hd) as Hd1.
    set (s1 := mkURLStore (<[genKey (Count s) := v0]> (urls s))) in *.
    assert (He : exec genKey fuel s (Op_Put v0) =
                   Some (Ret_string (genKey (Count s)), s1)).
    { simpl. destruct fuel as [|fuel]; [lia|].
      now rewrite (Put_free genKey fuel s v0 Hfree). }
    assert (Hc1 : Count s1 = Count s + 1) by now apply Count_insert.
    rewrite fmap_cons, (run_cons _ _ _ _ _ _ _ He). simpl fst. simpl snd.
    destruct (IH s1 Hd1) as [Hcount Hall]. split.
    + rewrite Hcount, Hc1. simpl length. lia.
    + intros [|i] v Hi.
      * simpl in Hi. injection Hi as ->. rewrite Z.add_0_r. split.
        -- reflexivity.
        -- unfold Get.
           rewrite (run_keeps genKey fuel s1 _ (genKey (Count s)) v).
           ++ reflexivity.
           ++ apply lookup_insert_eq.
      * simpl in Hi. destruct (Hall i v Hi) as [Hh Hg].
        replace (Count s + Z.of_nat (S i)) with (Count s1 + Z.of_nat i)
          by lia.
        split; [exact Hh | exact Hg].
Qed.

End PutSequences.

(** ** The handlers *)

Section HandlerFacts.

Variable genKey : Z -> string.

Implicit Types (s : URLStore) (key url k v path : string) (fuel : nat).

Lemma Redirect_bound s c key url :
  urls s !! key = Some url -> url <> "" ->
  Main.Redirect s (String c key) = Some (url, 302).
Proof.
  intros Hk Hne. unfold Main.Redirect, Get. rewrite Hk. simpl.
  now destruct (decide (url = "")).
Qed.

Lemma Add_blank fuel s :
  Main.Add genKey fuel s "" =
    Some (Main.mkResponse "text/html" Main.addForm, s).
Proof. reflexivity. Qed.

Lemma Add_filled fuel s url :
  url <> "" ->
  Main.Add genKey fuel s url =
    match Put genKey fuel s url with
    | Some (key, s') => Some (Main.mkResponse "text/html" key, s')
    | None => None
    end.
Proof. intros Hne. unfold Main.Add. now destruct (decide (url = "")). Qed.

Lemma Add_filled_inv fuel s url r s' :
  url <> "" -> Main.Add genKey fuel s url = Some (r, s') ->
  r = Main.mkResponse "text/html" (genKey (Count s)) /\
  urls s !! genKey (Count s) = None /\
  s' = mkURLStore (<[genKey (Count s) := url]> (urls s)).
Proof.
  intros Hne H. rewrite (Add_filled _ _ _ Hne) in H.
  destruct (Put genKey fuel s url) as [[key s1]|] eqn:Hp; [|discriminate H].
  apply Put_inv in Hp as (-> & Hk & ->). now inversion H.
Qed.

(** X6.  [Redirect] panics on the empty path and on no other.  Otherwise
    it redirects, with status 302, to a target that is never empty: the
    value stored under the path less its first byte, or [/add] when that
    key reads as the empty string. *)
Theorem Redirect_target s path :
  (Main.Redirect s path = None <-> path = "") /\
  (forall target code,
     Main.Redirect s path = Some (target, code) ->
     code = 302 /\ target <> "" /\
     exists c key, path = String c key /\
       (target = Get s key \/ (Get s key = "" /\ target = "/add"))).
Proof.
  destruct path as [|c key]; simpl.
  - split; [easy | intros target code H; discriminate H].
  - split.
    + destruct (decide (Get s key = "")); split; intros H; discriminate H.
    + intros target code.
      destruct (decide (Get s key = "")) as [He|Hne]; intros [= <- <-].
      * split; [reflexivity|]. split; [discriminate|].
        exists c, key. split; [reflexivity | now right].
      * split; [reflexivity|]. split; [exact Hne|].
        exists c, key. split; [reflexivity | now left].
Qed.

(** X7.  A key bound to a non-empty value redirects to that value, and
    goes on doing so after any sequence of calls on the store: a short
    link is never lost and never retargeted. *)
Theorem Redirect_permanent fuel s (ops : list op) c key url :
  urls s !! key = Some url -> url <> "" ->
  Main.Redirect s (String c key) = Some (url, 302) /\
  Main.Redirect (run genKey fuel s ops).2 (String c key) = Some (url, 302).
Proof.
  intros Hk Hne. split.
  - now apply Redirect_bound.
  - apply Redirect_bound; [now apply run_keeps | exact Hne].
Qed.

(** X8.  [Add] with a non-empty url, when it returns: the reply is of
    type text/html and its body is the key of ordinal [Count()], a key
    that was free; asking [Redirect] for that key afterwards redirects to
    the url. *)
Theorem Add_round_trip fuel s url r s' :
  url <> "" -> Main.Add genKey fuel s url = Some (r, s') ->
  Main.content_type r = "text/html" /\
  Main.body r = genKey (Count s) /\
  urls s !! Main.body r = None /\
  Main.Redirect s' ("/" +:+ Main.body r) = Some (url, 302).
Proof.
  intros Hne H. apply (Add_filled_inv _ _ _ _ _ Hne) in H as (-> & Hk & ->).
  cbn [Main.body Main.content_type].
  split; [reflexivity|]. split; [reflexivity|]. split; [exact Hk|].
  cbv [String.append]. apply Redirect_bound; [|exact Hne].
  cbn [urls]. apply lookup_insert_eq.
Qed.

(** X9.  [Add] never binds a key to the empty string.  With an empty url
    it answers with the form and leaves the store as it is; and a store
    without empty values is one still after any call of [Add]. *)
Theorem Add_keeps_no_blank fuel s url r s' :
  Main.Add genKey fuel s url = Some (r, s') ->
  (url = "" -> s' = s /\ Main.body r = Main.addForm) /\
  (Main.no_blank s -> Main.no_blank s').
Proof.
  intros H. destruct (decide (url = "")) as [->|Hne].
  - rewrite Add_blank in H. injection H as <- <-. now split.
  - split; [intros He; now destruct Hne|].
    apply (Add_filled_inv _ _ _ _ _ Hne) in H as (-> & Hk & ->).
    intros Hnb k v. simpl.
    destruct (decide (genKey (Count s) = k)) as [->|Hk'].
    + rewrite lookup_insert_eq. now intros [= <-].
    + rewrite lookup_insert_ne by exact Hk'. apply Hnb.
Qed.

(** X10.  [Add] returns, given enough iterations, exactly when the url is
    empty or the candidate key of [Put] is free; otherwise it never
    answers. *)
Theorem Add_returns_iff s url :
  ((exists fuel r, Main.Add genKey fuel s url = Some r) <->
   url = "" \/ urls s !! genKey (Count s) = None) /\
  (url <> "" -> is_Some (urls s !! genKey (Count s)) ->
   forall fuel, Main.Add genKey fuel s url = None).
Proof.
  split.
  - split.
    + intros (fuel & [r s'] & H).
      destruct (decide (url = "")) as [He|Hne]; [now left|right].
      now apply (Add_filled_inv _ _ _ _ _ Hne) in H as (_ & Hk & _).
    + intros [->|Hk].
      * exists 0%nat. eexists. apply Add_blank.
      * destruct (decide (url = "")) as [->|Hne].
        -- exists 0%nat. eexists. apply Add_blank.
        -- exists 1%nat. eexists. rewrite (Add_filled _ _ _ Hne).
           now rewrite (Put_free genKey 0 s url Hk).
  - intros Hne Hk fuel. rewrite (Add_filled _ _ _ Hne).
    now rewrite (Put_taken genKey fuel s url Hk).
Qed.

End HandlerFacts.

(** ** Sequences of requests *)

Section Sessions.

Variable genKey : Z -> string.

Implicit Types (s : URLStore) (key url k v path : string) (fuel : nat).
Implicit Types (q : Main.request) (qs : list Main.request).

Lemma serve_cons fuel s q qs r s' :
  Main.handle genKey fuel s q = Some (r, s') ->
  Main.serve genKey fuel s (q :: qs) =
    (r :: (Main.serve genKey fuel s' qs).1, (Main.serve genKey fuel s' qs).2).
Proof.
  intros Hh. simpl. rewrite Hh. now destruct (Main.serve genKey fuel s' qs).
Qed.

Lemma serve_stuck fuel s q qs :
  Main.handle genKey fuel s q = None ->
  Main.serve genKey fuel s (q :: qs) = ([], s).
Proof. intros Hh. simpl. now rewrite Hh. Qed.

(** A request that is answered leaves every entry as it is. *)
Lemma handle_keeps fuel s q r s' k v :
  Main.handle genKey fuel s q = Some (r, s') ->
  urls s !! k = Some v -> urls s' !! k = Some v.
Proof.
  destruct q as [path|url]; simpl.
  - now intros [= _ <-].
  - destruct (Main.Add genKey fuel s url) as [[r1 s1]|] eqn:Ha; [|discriminate].
    intros [= _ <-] Hk. destruct (decide (url = "")) as [->|Hne].
    + rewrite Add_blank in Ha. now injection Ha as _ <-.
    + apply (Add_filled_inv _ _ _ _ _ _ Hne) in Ha as (_ & Hfree & ->).
      simpl. rewrite lookup_insert_ne; [exact Hk | congruence].
Qed.

Lemma serve_keeps fuel s qs k v :
  urls s !! k = Some v -> urls (Main.serve genKey fuel s qs).2 !! k = Some v.
Proof.
  revert s. induction qs as [|q qs IH]; intros s Hk.
  - exact Hk.
  - destruct (Main.handle genKey fuel s q) as [[r s1]|] eqn:Hh.
    + rewrite (serve_cons _ _ _ _ _ _ Hh). simpl.
      apply IH. eapply handle_keeps; eauto.
    + now rewrite (serve_stuck _ _ _ _ Hh).
Qed.

Hypothesis genKey_inj :
  forall n m, 0 <= n -> 0 <= m -> genKey n = genKey m -> n = m.

(** On a dense store every request is answered, the store stays dense,
    and an [Add] with a non-empty url is answered with a key that is then
    bound to the url. *)
Lemma handle_dense fuel s q :
  (0 < fuel)%nat -> dense genKey s ->
  exists r s',
    Main.handle genKey fuel s q = Some (r, s') /\
    dense genKey s' /\
    (Main.no_blank s -> Main.no_blank s') /\
    (forall url, q = Main.Req_Add url -> url <> "" ->
       exists key, r = Main.Reply_Add (Main.mkResponse "text/html" key) /\
                   urls s' !! key = Some url).
Proof.
  intros Hfuel Hd. destruct q as [path|url]; simpl.
  - eexists _, _. split; [reflexivity|]. split; [exact Hd|].
    split; [auto|]. intros url Hq. discriminate Hq.
  - destruct (decide (url = "")) as [->|Hne].
    + rewrite Add_blank. eexists _, _. split; [reflexivity|].
      split; [exact Hd|]. split; [auto|]. intros url [= <-] Hne. now destruct Hne.
    + pose proof (dense_free genKey genKey_inj s Hd) as Hfree.
      destruct fuel as [|fuel]; [lia|].
      rewrite (Add_filled _ _ _ _ Hne), (Put_free genKey fuel s url Hfree).
      eexists _, _. split; [reflexivity|].
      split; [now apply dense_insert|]. split.
      * intros Hnb k v. simpl.
        destruct (decide (genKey (Count s) = k)) as [->|Hk'].
        -- rewrite lookup_insert_eq. now intros [= <-].
        -- rewrite lookup_insert_ne by exact Hk'. apply Hnb.
      * intros url' [= <-] _. eexists. split; [reflexivity|].
        simpl. apply lookup_insert_eq.
Qed.

Lemma serve_dense fuel s qs :
  (0 < fuel)%nat -> dense genKey s ->
  length (Main.serve genKey fuel s qs).1 = length qs /\
  dense genKey (Main.serve genKey fuel s qs).2 /\
  (Main.no_blank s -> Main.no_blank (Main.serve genKey fuel s qs).2) /\
  (forall i url, qs !! i = Some (Main.Req_Add url) -> url <> "" ->
     exists key,
       (Main.serve genKey fuel s qs).1 !! i =
         Some (Main.Reply_Add (Main.mkResponse "text/html" key)) /\
       urls (Main.serve genKey fuel s qs).2 !! key = Some url).
Proof.
  intros Hfuel. revert s. induction qs as [|q qs IH]; intros s Hd.
  - split; [reflexivity|]. split; [exact Hd|]. split; [auto|].
    intros i url Hi. discriminate Hi.
  - destruct (handle_dense fuel s q Hfuel Hd)
      as (r & s1 & Hh & Hd1 & Hnb1 & Hadd).
    rewrite (serve_cons _ _ _ _ _ _ Hh). simpl fst. simpl snd.
    destruct (IH s1 Hd1) as (Hlen & Hdf & Hnbf & Hall).
    split; [simpl; now rewrite Hlen|]. split; [exact Hdf|].
    split; [auto|].
    intros [|i] url Hi Hne; simpl in Hi.
    + injection Hi as ->. destruct (Hadd url eq_refl Hne) as (key & -> & Hk).
      exists key. split; [reflexivity | now apply serve_keeps].
    + apply (Hall i url Hi Hne).
Qed.

(** X11.  With a generator that maps different ordinals to different
    keys, on a store whose keys are those of the ordinals below its count
    (the empty store is one): every request of a sequence of [Redirect]
    and [Add] requests is answered, no [Add] hangs; the store is of the
    same kind afterwards, and has no empty value if it had none. *)
Theorem serve_answers_all fuel s qs :
  (0 < fuel)%nat -> dense genKey s ->
  length (Main.serve genKey fuel s qs).1 = length qs /\
  dense genKey (Main.serve genKey fuel s qs).2 /\
  (Main.no_blank s -> Main.no_blank (Main.serve genKey fuel s qs).2).
Proof.
  intros Hfuel Hd.
  destruct (serve_dense fuel s qs Hfuel Hd) as (H1 & H2 & H3 & _). auto.
Qed.

(** X12.  Under the same conditions, every [Add] of the sequence with a
    non-empty url is answered with a key, and at the end of the sequence
    [Redirect] on that key redirects to that url. *)
Theorem serve_links_work fuel s qs i url :
  (0 < fuel)%nat -> dense genKey s ->
  qs !! i = Some (Main.Req_Add url) -> url <> "" ->
  exists key,
    (Main.serve genKey fuel s qs).1 !! i =
      Some (Main.Reply_Add (Main.mkResponse "text/html" key)) /\
    Main.Redirect (Main.serve genKey fuel s qs).2 ("/" +:+ key) =
      Some (url, 302).
Proof.
  intros Hfuel Hd Hi Hne.
  destruct (serve_dense fuel s qs Hfuel Hd) as (_ & _ & _ & Hall).
  destruct (Hall i url Hi Hne) as (key & Hr & Hk).
  exists key. split; [exact Hr|].
  cbv [String.append]. now apply Redirect_bound.
Qed.

End Sessions.

(** ** A direct [Set] in the way of [Put] *)

Section BlockedPut.

Variable genKey : Z -> string.

Implicit Types (s : URLStore) (key url k v : string) (fuel : nat).

(** X13.  A call of [Set] that stores the key of the ordinal following
    the current count blocks [Put]: the count is now that ordinal, the
    candidate of [Put] is the key just stored, and [Put] does not return
    whatever the number of iterations. *)
Theorem Set_can_block_Put fuel s v url :
  urls s !! genKey (Count s + 1) = None ->
  (Set_ s (genKey (Count s + 1)) v).1 = true /\
  Put genKey fuel (Set_ s (genKey (Count s + 1)) v).2 url = None.
Proof.
  intros Hk. rewrite (Set_absent _ _ _ Hk). split; [reflexivity|].
  cbn [snd]. apply Put_taken.
  rewrite (Count_insert _ _ _ Hk). cbn [urls].
  rewrite lookup_insert_eq. eauto.
Qed.

End BlockedPut.

(** ** The further properties at work, under the decimal generator *)

Lemma decimalKey_inj_nonneg (n m : Z) :
  0 <= n -> 0 <= m -> decimalKey n = decimalKey m -> n = m.
Proof. intros _ _. apply decimalKey_inj. Qed.

Lemma Set_twice_first_wins_witness :
  urls emptyStore !! "k" = None /\
  Get (Set_ (Set_ emptyStore "k" "http://a").2 "k" "http://b").2 "k"
    = "http://a".
Proof.
  split; [reflexivity|].
  apply (proj2 (Set_twice_first_wins emptyStore "k" "http://a" "http://b")).
  reflexivity.
Defined.

Lemma Set_commute_witness :
  "1" <> "2" /\
  (Set_ (Set_ store_one "1" "http://b").2 "2" "http://c").2 =
    (Set_ (Set_ store_one "2" "http://c").2 "1" "http://b").2.
Proof.
  assert (H : "1" <> "2") by discriminate.
  split; [exact H|].
  exact (proj1 (Set_commute store_one "1" "http://b" "2" "http://c" H)).
Defined.

Lemma Put_sequence_keys_witness :
  (0 < 1)%nat /\ dense decimalKey emptyStore /\
  (run decimalKey 1 emptyStore
       (Op_Put <$> ["http://a"; "http://b"; "http://c"])).1 !! 2%nat =
    Some (Op_Put "http://c", Ret_string "2") /\
  Get (run decimalKey 1 emptyStore
           (Op_Put <$> ["http://a"; "http://b"; "http://c"])).2 "2"
    = "http://c".
Proof.
  assert (Hf : (0 < 1)%nat) by lia.
  assert (Hd : dense decimalKey emptyStore) by apply dense_empty.
  split; [exact Hf|]. split; [exact Hd|].
  exact (proj2 (Put_sequence_keys decimalKey decimalKey_inj_nonneg 1
                  emptyStore ["http://a"; "http://b"; "http://c"] Hf Hd)
               2%nat "http://c" eq_refl).
Defined.

Lemma Redirect_target_witness :
  Main.Redirect store_one "/1" = Some ("http://a", 302) /\
  "http://a" <> "".
Proof.
  assert (H : Main.Redirect store_one "/1" = Some ("http://a", 302))
    by reflexivity.
  split; [exact H|].
  exact (proj1 (proj2 (proj2 (Redirect_target store_one "/1") _ _ H))).
Defined.

Lemma Redirect_permanent_witness :
  urls store_one !! "1" = Some "http://a" /\ "http://a" <> "" /\
  Main.Redirect
    (run decimalKey 1 store_one
         [Op_Set "1" "http://b"; Op_Set "0" "http://c"; Op_Put "http://d"]).2
    "/1" = Some ("http://a", 302).
Proof.
  assert (H1 : urls store_one !! "1" = Some "http://a") by reflexivity.
  assert (H2 : "http://a" <> "") by discriminate.
  split; [exact H1|]. split; [exact H2|].
  exact (proj2 (Redirect_permanent decimalKey 1 store_one
                  [Op_Set "1" "http://b"; Op_Set "0" "http://c";
                   Op_Put "http://d"] _ "1" "http://a" H1 H2)).
Defined.

Lemma Add_round_trip_witness :
  "http://a" <> "" /\
  Main.Add decimalKey 1 emptyStore "http://a" =
    Some (Main.mkResponse "text/html" "0",
          mkURLStore {["0" := "http://a"]}) /\
  Main.Redirect (mkURLStore {["0" := "http://a"]}) "/0" =
    Some ("http://a", 302).
Proof.
  assert (H1 : "http://a" <> "") by discriminate.
  assert (H2 : Main.Add decimalKey 1 emptyStore "http://a" =
                 Some (Main.mkResponse "text/html" "0",
                       mkURLStore {["0" := "http://a"]})) by reflexivity.
  split; [exact H1|]. split; [exact H2|].
  exact (proj2 (proj2 (proj2 (Add_round_trip decimalKey _ _ _ _ _ H1 H2)))).
Defined.

Lemma Add_keeps_no_blank_witness :
  Main.Add decimalKey 1 emptyStore "" =
    Some (Main.mkResponse "text/html" Main.addForm, emptyStore) /\
  Main.no_blank emptyStore /\
  Main.no_blank emptyStore.
Proof.
  assert (H1 : Main.Add decimalKey 1 emptyStore "" =
                 Some (Main.mkResponse "text/html" Main.addForm, emptyStore))
    by reflexivity.
  assert (H2 : Main.no_blank emptyStore).
  { intros key url Hk. discriminate Hk. }
  split; [exact H1|]. split; [exact H2|].
  exact (proj2 (Add_keeps_no_blank decimalKey _ _ _ _ _ H1) H2).
Defined.

Lemma Add_returns_iff_witness :
  "http://b" <> "" /\ is_Some (urls store_one !! decimalKey (Count store_one)) /\
  forall fuel, Main.Add decimalKey fuel store_one "http://b" = None.
Proof.
  assert (H1 : "http://b" <> "") by discriminate.
  assert (H2 : is_Some (urls store_one !! decimalKey (Count store_one))).
  { exists "http://a". reflexivity. }
  split; [exact H1|]. split; [exact H2|].
  exact (proj2 (Add_returns_iff decimalKey store_one "http://b") H1 H2).
Defined.

Lemma serve_answers_all_witness :
  (0 < 1)%nat /\ dense decimalKey emptyStore /\
  length (Main.serve decimalKey 1 emptyStore
            [Main.Req_Add "http://a"; Main.Req_Redirect "/0";
             Main.Req_Add ""; Main.Req_Redirect "";
             Main.Req_Add "http://b"]).1 = 5%nat.
Proof.
  assert (Hf : (0 < 1)%nat) by lia.
  assert (Hd : dense decimalKey emptyStore) by apply dense_empty.
  split; [exact Hf|]. split; [exact Hd|].
  exact (proj1 (serve_answers_all decimalKey decimalKey_inj_nonneg 1
                  emptyStore
                  [Main.Req_Add "http://a"; Main.Req_Redirect "/0";
                   Main.Req_Add ""; Main.Req_Redirect "";
                   Main.Req_Add "http://b"] Hf Hd)).
Defined.

Lemma serve_links_work_witness :
  (0 < 1)%nat /\ dense decimalKey emptyStore /\ "http://a" <> "" /\
  exists key,
    (Main.serve decimalKey 1 emptyStore
       [Main.Req_Add "http://a"; Main.Req_Redirect "/zz";
        Main.Req_Add "http://b"]).1 !! 0%nat =
      Some (Main.Reply_Add (Main.mkResponse "text/html" key)) /\
    Main.Redirect
      (Main.serve decimalKey 1 emptyStore
         [Main.Req_Add "http://a"; Main.Req_Redirect "/zz";
          Main.Req_Add "http://b"]).2 ("/" +:+ key) =
      Some ("http://a", 302).
Proof.
  assert (Hf : (0 < 1)%nat) by lia.
  assert (Hd : dense decimalKey emptyStore) by apply dense_empty.
  assert (Hne : "http://a" <> "") by discriminate.
  split; [exact Hf|]. split; [exact Hd|]. split; [exact Hne|].
  exact (serve_links_work decimalKey decimalKey_inj_nonneg 1 emptyStore
           [Main.Req_Add "http://a"; Main.Req_Redirect "/zz";
            Main.Req_Add "http://b"] 0%nat "http://a" Hf Hd eq_refl Hne).
Defined.

Lemma Set_can_block_Put_witness :
  urls emptyStore !! decimalKey (Count emptyStore + 1) = None /\
  Put decimalKey 5 (Set_ emptyStore (decimalKey (Count emptyStore + 1))
                         "http://a").2 "http://b" = None.
Proof.
  assert (H : urls emptyStore !! decimalKey (Count emptyStore + 1) = None)
    by reflexivity.
  split; [exact H|].
  exact (proj2 (Set_can_block_Put decimalKey 5 emptyStore "http://a"
                  "http://b" H)).
Defined.
